(** * png_to_bw_bmp.py: PNG to 1-bit black-and-white BMP

    The script is a straight line of four calls into the imaging library:

<<
    img = Image.open("prism_logo.png")
    bw  = img.convert("L").point(lambda x: 0 if x < 128 else 255, '1')
    bw.save("prism_logo_bw.bmp")
>>

    The development embeds the script over a small model of the library's
    image objects (module [Image]) and of the file system the script reads
    and writes, and proves the properties of the conversion. *)

From Stdlib Require Import ZArith Strings.Byte.
From stdpp Require Import base strings gmap list.

Local Open Scope Z_scope.

(** ** Exceptions and the script's effects *)

(** The exceptions the library calls of the script can raise. *)
Inductive exn :=
| FileNotFoundError
| UnidentifiedImageError
| ValueError
| PermissionError.

(** The part of the file system the script can observe: the contents of the
    files by path, and the paths that cannot be written. *)
Record fsys := mkFsys {
  files : gmap string (list byte);
  readonly : gset string
}.

(** A statement of the script: it runs in a file system, and either raises
    or returns a value, leaving a file system behind. *)
Definition io (A : Type) : Type := fsys → (exn + A) * fsys.

Definition io_ret {A} (a : A) : io A := λ fs, (inr a, fs).

Definition io_bind {A B} (m : io A) (k : A → io B) : io B :=
  λ fs, match m fs with
        | (inl e, fs') => (inl e, fs')
        | (inr a, fs') => k a fs'
        end.

(** An expression that touches no file: its exception, if any, is raised in
    the current file system. *)
Definition io_pure {A} (r : exn + A) : io A := λ fs, (r, fs).

#[global] Instance io_mret : MRet io := @io_ret.
#[global] Instance io_mbind : MBind io := λ A B k m, io_bind m k.

(** Exit status of the interpreter: 0 when the script runs to its end, 1 when
    an exception reaches the top level. *)
Definition exit_status {A} (r : exn + A) : Z :=
  match r with
  | inl _ => 1
  | inr _ => 0
  end.

(** ** The image library *)

Module Image.

(** Colour modes of the data model: ["1"], ["L"], ["RGB"], ["RGBA"]. *)
Inductive mode := M1 | ML | MRGB | MRGBA.

(** Pixel storage, by mode.  Mode ["1"] keeps one byte per pixel, 0 for
    black and 255 for white; the other modes keep one byte per band. *)
Inductive raster :=
| Bits (d : list Z)
| Gray (d : list Z)
| RGB (d : list (Z * Z * Z))
| RGBA (d : list (Z * Z * Z * Z)).

Record t := mk { width : nat; height : nat; im : raster }.

Definition getmode (r : raster) : mode :=
  match r with
  | Bits _ => M1
  | Gray _ => ML
  | RGB _ => MRGB
  | RGBA _ => MRGBA
  end.

Definition getbands (m : mode) : nat :=
  match m with
  | M1 | ML => 1
  | MRGB => 3
  | MRGBA => 4
  end.

Definition npixels (r : raster) : nat :=
  match r with
  | Bits d | Gray d => length d
  | RGB d => length d
  | RGBA d => length d
  end.

(** A band value is a byte. *)
Definition u8 (x : Z) : Prop := 0 ≤ x ≤ 255.

Definition wf_raster (r : raster) : Prop :=
  match r with
  | Bits d => Forall (λ x, x = 0 ∨ x = 255) d
  | Gray d => Forall u8 d
  | RGB d => Forall (λ '(r, g, b), u8 r ∧ u8 g ∧ u8 b) d
  | RGBA d => Forall (λ '(r, g, b, a), u8 r ∧ u8 g ∧ u8 b ∧ u8 a) d
  end.

(** A well-formed image: bytes in every band, and as many pixels as its
    size says. *)
Definition wf (img : t) : Prop :=
  wf_raster (im img) ∧ npixels (im img) = (width img * height img)%nat.

(** *** [convert("L")] *)

(** Luma of an RGB pixel (ITU-R 601-2), in 16-bit fixed point, rounded. *)
Definition L24 (r g b : Z) : Z := r * 19595 + g * 38470 + b * 7471 + 0x8000.

Definition rgb2l (p : Z * Z * Z) : Z :=
  let '(r, g, b) := p in Z.shiftr (L24 r g b) 16.

Definition rgba2l (p : Z * Z * Z * Z) : Z :=
  let '(r, g, b, _) := p in Z.shiftr (L24 r g b) 16.

Definition bit2l (x : Z) : Z := if decide (x ≠ 0) then 255 else 0.

(** Modelled from the spec: [img.convert("L")] of the imaging library, whose
    code is not part of the repository.  Step A maps every pixel to a single
    luminance value in [0,255] by the standard luminance formula for the
    source colour mode; an image that is already in mode ["L"] is copied. *)
Definition convert (img : t) : t :=
  match im img with
  | Bits d => mk (width img) (height img) (Gray (bit2l <$> d))
  | Gray d => mk (width img) (height img) (Gray d)
  | RGB d => mk (width img) (height img) (Gray (rgb2l <$> d))
  | RGBA d => mk (width img) (height img) (Gray (rgba2l <$> d))
  end.

(** *** [point(lut, '1')] *)

(** [range(256)]. *)
Definition range256 : list Z := Z.of_nat <$> seq 0 256.

(** The table built from a callable:
    [[lut(i) for i in range(256)] * bands]. *)
Definition flatLut (lut : Z → Z) (bands : nat) : list Z :=
  mjoin (replicate bands (lut <$> range256)).

(** Table entries are stored as bytes. *)
Definition CLIP8 (v : Z) : Z :=
  if decide (v ≤ 0) then 0 else if decide (v < 256) then v else 255.

(** [table[x]] for a pixel byte [x]. *)
Definition table_get (table : list Z) (x : Z) : Z :=
  default 0 (table !! Z.to_nat x).

(** Modelled from the spec: [img.point(lut, '1')] of the imaging library.
    Step B is a pure per-pixel function with no neighbourhood dependency:
    the callable is tabulated once over the 256 byte values and every pixel
    is replaced by its table entry; the result has mode ["1"] and the size
    of its source.  A table whose length is not 256 times the number of
    bands of the target mode is refused. *)
Definition point (img : t) (lut : Z → Z) : exn + t :=
  let table := flatLut lut (getbands (getmode (im img))) in
  if decide (length table = (256 * getbands M1)%nat) then
    match im img with
    | Bits d | Gray d =>
        inr (mk (width img) (height img)
                (Bits (table_get (CLIP8 <$> table) <$> d)))
    | RGB _ | RGBA _ => inl ValueError
    end
  else inl ValueError.

(** *** [Image.open] and [save] *)

Section Codecs.

(** The decoder and the encoder of the library are taken as they are:
    the decoder identifies and decodes the bytes of a file or refuses
    them, the encoder serialises an image. *)
Variable png_decode : list byte → option t.
Variable bmp_encode : t → list byte.

(** Modelled from the spec: [Image.open(path)].  The loader fails when
    the path does not exist or the file does not decode; it writes
    nothing.  The call names no format, so the decoder stands for every
    format the library reads, not for PNG alone.  The library reads the
    pixel data only when line 7 asks for it; a file whose header or whose
    data does not decode is refused here, in both cases before [save].
    An input that exists but cannot be read is not modelled. *)
Definition open (path : string) : io t :=
  λ fs, match files fs !! path with
        | None => (inl FileNotFoundError, fs)
        | Some bytes =>
            match png_decode bytes with
            | None => (inl UnidentifiedImageError, fs)
            | Some img => (inr img, fs)
            end
        end.

(** Modelled from the spec: [img.save(path)].  The writer fails when the
    path is not writable; otherwise the file at the path holds the
    encoded image, whatever it held before.  A write that fails after the
    file was opened (a full disk), and the truncated file it may leave, are
    not modelled: nothing below is claimed about such a run. *)
Definition save (img : t) (path : string) : io unit :=
  λ fs, if decide (path ∈ readonly fs)
        then (inl PermissionError, fs)
        else (inr tt, mkFsys (<[path := bmp_encode img]> (files fs))
                             (readonly fs)).

End Codecs.

End Image.

(** ** The script *)

(** [lambda x: 0 if x < 128 else 255] *)
Definition threshold (x : Z) : Z := if decide (x < 128) then 0 else 255.

(** [bw = img.convert("L").point(lambda x: 0 if x < 128 else 255, '1')] *)
Definition bw (img : Image.t) : exn + Image.t :=
  Image.point (Image.convert img) threshold.

Section Script.

Variable png_decode : list byte → option Image.t.
Variable bmp_encode : Image.t → list byte.

(** The whole module, top to bottom. *)
Definition main : io unit :=
  img ← Image.open png_decode "prism_logo.png";
  bw ← io_pure (bw img);
  Image.save bmp_encode bw "prism_logo_bw.bmp".

End Script.

(** The table of [point(threshold, '1')] on a one-band image. *)
Definition threshold_table : list Z :=
  Image.CLIP8 <$> Image.flatLut threshold 1.

(** Black or white, as mode ["1"] stores it. *)
Definition binary (x : Z) : Prop := x = 0 ∨ x = 255.

(** ** A raw codec and sample file systems, to run the script *)

Module Raw.

(** A width byte, a height byte, then one grey byte per pixel. *)
Definition decode (bytes : list byte) : option Image.t :=
  match bytes with
  | w :: h :: px =>
      let w := N.to_nat (Byte.to_N w) in
      let h := N.to_nat (Byte.to_N h) in
      if decide (length px = (w * h)%nat)
      then Some (Image.mk w h (Image.Gray ((λ b, Z.of_N (Byte.to_N b)) <$> px)))
      else None
  | _ => None
  end.

(** One byte per pixel of a one-band image. *)
Definition encode (img : Image.t) : list byte :=
  match Image.im img with
  | Image.Bits d | Image.Gray d => (λ x, if decide (x = 0) then x00 else xff) <$> d
  | Image.RGB _ | Image.RGBA _ => []
  end.

(** The 2×2 image of scenario 1. *)
Definition logo : list byte := [x02; x02; x0a; xc8; x7f; x80].

Definition fs_logo : fsys :=
  mkFsys {[ "prism_logo.png"%string := logo ]} ∅.

(** The same input next to a stale output and an unrelated file. *)
Definition fs_logo_stale : fsys :=
  mkFsys (<[ "prism_logo_bw.bmp"%string := [x01; x02; x03] ]>
            (<[ "notes.txt"%string := [x68; x69] ]>
               {[ "prism_logo.png"%string := logo ]})) ∅.



End Raw.

(** ** The load failure as the spec words it *)



(** ** Further sample file systems *)

Module Samples.

(** The input of scenario 1 next to an output that exists and is
    read-only. *)
Definition fs_locked : fsys :=
  mkFsys (<[ "prism_logo_bw.bmp"%string := [x01; x02; x03] ]>
            {[ "prism_logo.png"%string := Raw.logo ]})
         {[ "prism_logo_bw.bmp"%string ]}.

(** [255 - x] on every pixel: the negative of a grey buffer. *)
Definition invert (d : list Z) : list Z := (λ x, 255 - x) <$> d.

End Samples.

(** ** Properties of the library model *)

Lemma length_range256 : length Image.range256 = 256%nat.
Proof. reflexivity. Qed.

Lemma lookup_range256 (x : Z) :
  0 ≤ x ≤ 255 → Image.range256 !! Z.to_nat x = Some x.
Proof.
  intros Hx. unfold Image.range256.
  rewrite list_lookup_fmap, lookup_seq_lt by lia.
  simpl. f_equal. lia.
Qed.

Lemma flatLut_one (lut : Z → Z) : Image.flatLut lut 1 = lut <$> Image.range256.
Proof.
  unfold Image.flatLut. generalize (lut <$> Image.range256). intros l.
  simpl. apply app_nil_r.
Qed.

Lemma length_flatLut (lut : Z → Z) (bands : nat) :
  length (Image.flatLut lut bands) = (256 * bands)%nat.
Proof.
  unfold Image.flatLut.
  assert (Hl : length (lut <$> Image.range256) = 256%nat)
    by (rewrite length_fmap; apply length_range256).
  revert Hl. generalize (lut <$> Image.range256). intros l Hl.
  induction bands as [|n IH]; [reflexivity|].
  cbn [replicate]. change (mjoin (l :: replicate n l)) with (l ++ mjoin (replicate n l)).
  rewrite length_app, IH, Hl. lia.
Qed.

(** Reading the table of a callable at a byte gives the callable's value
    there, stored as a byte. *)
Lemma table_get_flatLut (lut : Z → Z) (x : Z) :
  0 ≤ x ≤ 255 →
  Image.table_get (Image.CLIP8 <$> Image.flatLut lut 1) x = Image.CLIP8 (lut x).
Proof.
  intros Hx. unfold Image.table_get.
  rewrite flatLut_one, !list_lookup_fmap, lookup_range256 by done.
  reflexivity.
Qed.

Lemma CLIP8_threshold (x : Z) : Image.CLIP8 (threshold x) = threshold x.
Proof. unfold threshold. case_decide; reflexivity. Qed.

Lemma threshold_cases (x : Z) : threshold x = 0 ∨ threshold x = 255.
Proof. unfold threshold. case_decide; auto. Qed.

Lemma point_Gray (w h : nat) (d : list Z) (lut : Z → Z) :
  Image.point (Image.mk w h (Image.Gray d)) lut =
  inr (Image.mk w h
         (Image.Bits (Image.table_get (Image.CLIP8 <$> Image.flatLut lut 1) <$> d))).
Proof. reflexivity. Qed.

Lemma point_Bits (w h : nat) (d : list Z) (lut : Z → Z) :
  Image.point (Image.mk w h (Image.Bits d)) lut =
  inr (Image.mk w h
         (Image.Bits (Image.table_get (Image.CLIP8 <$> Image.flatLut lut 1) <$> d))).
Proof. reflexivity. Qed.

Lemma table_get_threshold (x : Z) :
  Image.u8 x → Image.table_get threshold_table x = threshold x.
Proof.
  intros Hx. unfold threshold_table.
  rewrite table_get_flatLut by exact Hx. apply CLIP8_threshold.
Qed.

Lemma threshold_table_binary : Forall binary threshold_table.
Proof.
  unfold threshold_table. rewrite flatLut_one, <- list_fmap_compose.
  apply Forall_fmap, Forall_true. intros x. unfold compose.
  rewrite CLIP8_threshold. apply threshold_cases.
Qed.

(** Whatever the pixel, its table entry is black or white. *)
Lemma table_get_binary (x : Z) : binary (Image.table_get threshold_table x).
Proof.
  unfold Image.table_get.
  destruct (threshold_table !! Z.to_nat x) as [v|] eqn:Hv; simpl.
  - eapply Forall_lookup_1; [apply threshold_table_binary | exact Hv].
  - left. reflexivity.
Qed.

Lemma table_get_fixes_binary (x : Z) :
  binary x → Image.table_get threshold_table x = x.
Proof. intros [-> | ->]; reflexivity. Qed.

Lemma point_threshold_Gray (w h : nat) (d : list Z) :
  Forall Image.u8 d →
  Image.point (Image.mk w h (Image.Gray d)) threshold =
  inr (Image.mk w h (Image.Bits (threshold <$> d))).
Proof.
  intros Hd. rewrite point_Gray. do 3 f_equal.
  apply Forall_fmap_ext. eapply Forall_impl; [exact Hd|].
  intros x Hx. apply table_get_threshold, Hx.
Qed.

Lemma convert_width (img : Image.t) :
  Image.width (Image.convert img) = Image.width img.
Proof. unfold Image.convert. destruct (Image.im img); reflexivity. Qed.

Lemma convert_height (img : Image.t) :
  Image.height (Image.convert img) = Image.height img.
Proof. unfold Image.convert. destruct (Image.im img); reflexivity. Qed.

(** [convert] always yields a mode-["L"] image with one value per pixel. *)
Lemma convert_Gray (img : Image.t) :
  ∃ d, Image.convert img = Image.mk (Image.width img) (Image.height img) (Image.Gray d)
       ∧ length d = Image.npixels (Image.im img).
Proof.
  unfold Image.convert. destruct (Image.im img) as [d|d|d|d]; eexists;
    (split; [reflexivity|]); simpl; rewrite ?length_fmap; reflexivity.
Qed.

(** Line 7 never raises: after [convert] the image has one band, the table
    has 256 entries, and every pixel becomes black or white. *)
Lemma bw_total (img : Image.t) :
  ∃ d, bw img = inr (Image.mk (Image.width img) (Image.height img) (Image.Bits d))
       ∧ length d = Image.npixels (Image.im img)
       ∧ Forall binary d.
Proof.
  destruct (convert_Gray img) as (g & Hg & Hlen).
  unfold bw. rewrite Hg, point_Gray. eexists. split; [reflexivity|]. split.
  - rewrite length_fmap. exact Hlen.
  - apply Forall_fmap, Forall_true. intros x. apply table_get_binary.
Qed.

(** ** Properties of the script *)

Section ScriptFacts.

Variable png_decode : list byte → option Image.t.
Variable bmp_encode : Image.t → list byte.

(** The three statements of the script, by cases on what the loader
    finds. *)
Lemma main_unfold (fs : fsys) :
  main png_decode bmp_encode fs =
  match files fs !! "prism_logo.png"%string with
  | None => (inl FileNotFoundError, fs)
  | Some bytes =>
      match png_decode bytes with
      | None => (inl UnidentifiedImageError, fs)
      | Some img =>
          match bw img with
          | inl e => (inl e, fs)
          | inr out => Image.save bmp_encode out "prism_logo_bw.bmp" fs
          end
      end
  end.
Proof.
  unfold main, mbind, io_mbind, io_bind, Image.open, io_pure.
  destruct (files fs !! "prism_logo.png"%string) as [bytes|]; [|reflexivity].
  destruct (png_decode bytes) as [img|]; [|reflexivity].
  destruct (bw img); reflexivity.
Qed.

(** A run on a decodable input: the image of line 7 is encoded to the
    output path, unless that path is read-only. *)
Lemma main_decoded (fs : fsys) (bytes : list byte) (img : Image.t) :
  files fs !! "prism_logo.png"%string = Some bytes →
  png_decode bytes = Some img →
  ∃ d, bw img = inr (Image.mk (Image.width img) (Image.height img) (Image.Bits d))
       ∧ length d = Image.npixels (Image.im img)
       ∧ Forall binary d
       ∧ main png_decode bmp_encode fs =
         Image.save bmp_encode
           (Image.mk (Image.width img) (Image.height img) (Image.Bits d))
           "prism_logo_bw.bmp" fs.
Proof.
  intros Hf Hd. destruct (bw_total img) as (d & Hbw & Hlen & Hbin).
  exists d. repeat split; try assumption.
  rewrite main_unfold, Hf, Hd, Hbw. reflexivity.
Qed.

(** A run that ends without an exception decoded its input and wrote the
    encoding of the image of line 7 to the output path. *)
Lemma main_success (fs fs' : fsys) :
  main png_decode bmp_encode fs = (inr tt, fs') →
  ∃ bytes img out,
    files fs !! "prism_logo.png"%string = Some bytes
    ∧ png_decode bytes = Some img
    ∧ bw img = inr out
    ∧ ("prism_logo_bw.bmp"%string ∉ readonly fs)
    ∧ fs' = mkFsys (<["prism_logo_bw.bmp"%string := bmp_encode out]> (files fs))
                   (readonly fs).
Proof.
  rewrite main_unfold.
  destruct (files fs !! "prism_logo.png"%string) as [bytes|]; [|discriminate].
  destruct (png_decode bytes) as [img|] eqn:Hdec; [|discriminate].
  destruct (bw img) as [e|out] eqn:Hbw; [discriminate|].
  unfold Image.save. case_decide; [discriminate|].
  intros [= <-]. exists bytes, img, out. auto 6.
Qed.

End ScriptFacts.

(** ** The claims *)

(** C1.  Threshold step: a grey pixel [x] in 0..255 of the source becomes,
    at the same position of the result of [point(threshold, '1')], 0 (black)
    if [x < 128] and 255 (white) otherwise; 128 itself becomes white, and the
    output pixel is black exactly when [x < 128]. *)
Theorem C1_threshold_step (w h : nat) (d : list Z) (i : nat) (x : Z) :
  d !! i = Some x →
  0 ≤ x ≤ 255 →
  ∃ out y,
    Image.point (Image.mk w h (Image.Gray d)) threshold
      = inr (Image.mk w h (Image.Bits out))
    ∧ out !! i = Some y
    ∧ y = (if decide (x < 128) then 0 else 255)
    ∧ (x = 128 → y = 255)
    ∧ (y = 0 ↔ x < 128)
    ∧ (y = 255 ↔ 128 ≤ x).
Proof.
  intros Hi Hx. rewrite point_Gray.
  eexists _, (threshold x). split; [reflexivity|]. split.
  - rewrite list_lookup_fmap, Hi. simpl. f_equal.
    apply table_get_threshold, Hx.
  - unfold threshold. case_decide; repeat split; intros; lia.
Qed.

Lemma C1_threshold_step_witness :
  ([127; 128] : list Z) !! 1%nat = Some 128 ∧ 0 ≤ 128 ≤ 255 ∧
  ∃ out y,
    Image.point (Image.mk 2 1 (Image.Gray [127; 128])) threshold
      = inr (Image.mk 2 1 (Image.Bits out))
    ∧ out !! 1%nat = Some y
    ∧ y = (if decide (128 < 128) then 0 else 255)
    ∧ (128 = 128 → y = 255)
    ∧ (y = 0 ↔ 128 < 128)
    ∧ (y = 255 ↔ 128 ≤ 128).
Proof.
  split; [reflexivity|]. split; [lia|].
  apply (C1_threshold_step 2 1 [127; 128] 1 128); [reflexivity | lia].
Defined.

(** C2.  Scenario 1: a 2×2 image whose luminance values, after the greyscale
    step, are [10, 200, 127, 128] comes out of line 7 as the 2×2 binary image
    [0, 255, 0, 255]. *)
Theorem C2_scenario_2x2 (img : Image.t) :
  Image.width img = 2%nat →
  Image.height img = 2%nat →
  Image.im (Image.convert img) = Image.Gray [10; 200; 127; 128] →
  bw img = inr (Image.mk 2 2 (Image.Bits [0; 255; 0; 255])).
Proof.
  intros Hw Hh Hl. unfold bw.
  pose proof (convert_width img) as Cw. pose proof (convert_height img) as Ch.
  destruct (Image.convert img) as [cw ch cd]. simpl in *. subst.
  rewrite Hw, Hh. reflexivity.
Qed.

Lemma C2_scenario_2x2_witness :
  bw (Image.mk 2 2 (Image.Gray [10; 200; 127; 128]))
  = inr (Image.mk 2 2 (Image.Bits [0; 255; 0; 255])).
Proof.
  apply (C2_scenario_2x2 (Image.mk 2 2 (Image.Gray [10; 200; 127; 128])));
    reflexivity.
Defined.

(** C3.  Size is preserved: when the input decodes to an image, the image of
    line 7 has its width, its height and its number of pixels, no resize
    runs, and that image is what the script encodes to the output path
    (when the path can be written). *)
Theorem C3_size_preserved
    (png_decode : list byte → option Image.t) (bmp_encode : Image.t → list byte)
    (fs : fsys) (bytes : list byte) (img : Image.t) :
  files fs !! "prism_logo.png"%string = Some bytes →
  png_decode bytes = Some img →
  ∃ out,
    bw img = inr out
    ∧ Image.width out = Image.width img
    ∧ Image.height out = Image.height img
    ∧ Image.npixels (Image.im out) = Image.npixels (Image.im img)
    ∧ (("prism_logo_bw.bmp"%string ∉ readonly fs) →
       main png_decode bmp_encode fs =
       (inr tt, mkFsys (<["prism_logo_bw.bmp"%string := bmp_encode out]> (files fs))
                       (readonly fs))).
Proof.
  intros Hf Hd.
  destruct (main_decoded png_decode bmp_encode fs bytes img Hf Hd)
    as (d & Hbw & Hlen & _ & Hmain).
  eexists. split; [exact Hbw|]. repeat split; [exact Hlen|].
  intros Hw. rewrite Hmain. unfold Image.save. case_decide; [contradiction|].
  reflexivity.
Qed.

Lemma C3_size_preserved_witness :
  ∃ out,
    bw (Image.mk 2 2 (Image.Gray [10; 200; 127; 128])) = inr out
    ∧ Image.width out = 2%nat
    ∧ Image.height out = 2%nat
    ∧ Image.npixels (Image.im out) = 4%nat
    ∧ (("prism_logo_bw.bmp"%string ∉ readonly Raw.fs_logo) →
       main Raw.decode Raw.encode Raw.fs_logo =
       (inr tt, mkFsys (<["prism_logo_bw.bmp"%string := Raw.encode out]>
                          (files Raw.fs_logo))
                       (readonly Raw.fs_logo))).
Proof.
  apply (C3_size_preserved Raw.decode Raw.encode Raw.fs_logo Raw.logo
           (Image.mk 2 2 (Image.Gray [10; 200; 127; 128])));
    vm_compute; reflexivity.
Defined.

(** C4.  Thresholding is idempotent: applying [point(threshold, '1')] to its
    own result on a grey buffer gives that result again; and on a buffer that
    is already black-and-white (0 and 255 only) it changes no pixel. *)
Theorem C4_threshold_idempotent (w h : nat) (d : list Z) :
  (∃ once,
     Image.point (Image.mk w h (Image.Gray d)) threshold = inr once
     ∧ Image.point once threshold = inr once)
  ∧ (Forall binary d →
     Image.point (Image.mk w h (Image.Bits d)) threshold
       = inr (Image.mk w h (Image.Bits d))
     ∧ Image.point (Image.mk w h (Image.Gray d)) threshold
       = inr (Image.mk w h (Image.Bits d))).
Proof.
  assert (Hfix : ∀ l : list Z, Forall binary l →
            Image.table_get threshold_table <$> l = l).
  { intros l Hl. rewrite <- (list_fmap_id l) at 2.
    apply Forall_fmap_ext. eapply Forall_impl; [exact Hl|].
    intros x Hx. apply table_get_fixes_binary, Hx. }
  split.
  - eexists. split; [apply point_Gray|].
    rewrite point_Bits. do 3 f_equal. apply Hfix.
    apply Forall_fmap, Forall_true. intros x. apply table_get_binary.
  - intros Hd. rewrite point_Bits, point_Gray.
    fold threshold_table. rewrite (Hfix d Hd). split; reflexivity.
Qed.

Lemma C4_threshold_idempotent_witness :
  Forall binary [0; 255; 255; 0] ∧
  Image.point (Image.mk 2 2 (Image.Bits [0; 255; 255; 0])) threshold
    = inr (Image.mk 2 2 (Image.Bits [0; 255; 255; 0]))
  ∧ Image.point (Image.mk 2 2 (Image.Gray [0; 255; 255; 0])) threshold
    = inr (Image.mk 2 2 (Image.Bits [0; 255; 255; 0])).
Proof.
  assert (H : Forall binary [0; 255; 255; 0])
    by (repeat constructor; unfold binary; lia).
  split; [exact H|].
  exact (proj2 (C4_threshold_idempotent 2 2 [0; 255; 255; 0]) H).
Defined.

(** C5.  Determinism: two runs whose input files hold the same bytes produce
    the same output file, whatever else the two file systems hold (other
    files, an earlier output); and they end the same way when the output
    path is writable in both or in neither. *)
Theorem C5_deterministic
    (png_decode : list byte → option Image.t) (bmp_encode : Image.t → list byte)
    (fs1 fs2 : fsys) :
  files fs1 !! "prism_logo.png"%string = files fs2 !! "prism_logo.png"%string →
  (∀ fs1' fs2',
     main png_decode bmp_encode fs1 = (inr tt, fs1') →
     main png_decode bmp_encode fs2 = (inr tt, fs2') →
     ∃ bytes,
       files fs1' !! "prism_logo_bw.bmp"%string = Some bytes
       ∧ files fs2' !! "prism_logo_bw.bmp"%string = Some bytes)
  ∧ (("prism_logo_bw.bmp"%string ∈ readonly fs1
      ↔ "prism_logo_bw.bmp"%string ∈ readonly fs2) →
     fst (main png_decode bmp_encode fs1) = fst (main png_decode bmp_encode fs2)).
Proof.
  intros Hin. split.
  - intros fs1' fs2' H1 H2.
    apply main_success in H1 as (b1 & i1 & o1 & Hf1 & Hd1 & Hb1 & _ & ->).
    apply main_success in H2 as (b2 & i2 & o2 & Hf2 & Hd2 & Hb2 & _ & ->).
    assert (b1 = b2) as -> by congruence.
    assert (i1 = i2) as -> by congruence.
    assert (o1 = o2) as -> by congruence.
    exists (bmp_encode o2). simpl. rewrite !lookup_insert_eq. auto.
  - intros Hro. rewrite !main_unfold, <- Hin.
    destruct (files fs1 !! "prism_logo.png"%string) as [bytes|]; [|reflexivity].
    destruct (png_decode bytes) as [img|]; [|reflexivity].
    destruct (bw img) as [e|out]; [reflexivity|].
    unfold Image.save. repeat case_decide; try reflexivity; tauto.
Qed.

Lemma C5_deterministic_witness :
  files Raw.fs_logo !! "prism_logo.png"%string
    = files Raw.fs_logo_stale !! "prism_logo.png"%string
  ∧ ∃ bytes,
      files (snd (main Raw.decode Raw.encode Raw.fs_logo))
        !! "prism_logo_bw.bmp"%string = Some bytes
      ∧ files (snd (main Raw.decode Raw.encode Raw.fs_logo_stale))
          !! "prism_logo_bw.bmp"%string = Some bytes.
Proof.
  assert (Hin : files Raw.fs_logo !! "prism_logo.png"%string
                = files Raw.fs_logo_stale !! "prism_logo.png"%string)
    by (vm_compute; reflexivity).
  split; [exact Hin|].
  apply (proj1 (C5_deterministic Raw.decode Raw.encode
                  Raw.fs_logo Raw.fs_logo_stale Hin)
           (snd (main Raw.decode Raw.encode Raw.fs_logo))
           (snd (main Raw.decode Raw.encode Raw.fs_logo_stale)));
    vm_compute; reflexivity.
Defined.




(** C7.  Scenario 3: an all-white grey image (every pixel 255) comes out of
    line 7 as an all-255 binary image of the same width, height and number
    of pixels. *)
Theorem C7_all_white (w h n : nat) :
  bw (Image.mk w h (Image.Gray (replicate n 255)))
  = inr (Image.mk w h (Image.Bits (replicate n 255))).
Proof.
  unfold bw.
  change (Image.convert (Image.mk w h (Image.Gray (replicate n 255))))
    with (Image.mk w h (Image.Gray (replicate n 255))).
  rewrite point_Gray, fmap_replicate. reflexivity.
Qed.

(** C8.  Greyscale step: [convert("L")] is a function of the image alone; on
    a well-formed image of any source mode it yields a mode-["L"] image of
    the same size with exactly one luminance value per pixel, each in
    0..255. *)
Theorem C8_grayscale_range (img : Image.t) :
  Image.wf img →
  ∃ d,
    Image.convert img
      = Image.mk (Image.width img) (Image.height img) (Image.Gray d)
    ∧ length d = Image.npixels (Image.im img)
    ∧ Forall (λ l, 0 ≤ l ≤ 255) d
    ∧ Image.wf (Image.convert img).
Proof.
  intros [Hwf Hsize].
  assert (Hrgb : ∀ r g b, Image.u8 r → Image.u8 g → Image.u8 b →
            Image.u8 (Z.shiftr (Image.L24 r g b) 16)).
  { unfold Image.u8, Image.L24. intros r g b Hr Hg Hb.
    rewrite Z.shiftr_div_pow2 by lia. change (2 ^ 16) with 65536.
    split; [apply Z.div_pos; lia|].
    apply Z.lt_succ_r, Z.div_lt_upper_bound; lia. }
  assert (Hd : ∃ d, Image.convert img
                 = Image.mk (Image.width img) (Image.height img) (Image.Gray d)
               ∧ length d = Image.npixels (Image.im img)
               ∧ Forall Image.u8 d).
  { unfold Image.convert. destruct (Image.im img) as [d|d|d|d]; simpl in *;
      eexists; (split; [reflexivity|]); rewrite ?length_fmap;
      (split; [reflexivity|]).
    - apply Forall_fmap, Forall_true. intros x. unfold Image.bit2l, Image.u8.
      simpl. case_decide; lia.
    - exact Hwf.
    - apply Forall_fmap. eapply Forall_impl; [exact Hwf|].
      intros [[r g] b] (Hr & Hg & Hb). simpl. apply Hrgb; assumption.
    - apply Forall_fmap. eapply Forall_impl; [exact Hwf|].
      intros [[[r g] b] a] (Hr & Hg & Hb & _). simpl. apply Hrgb; assumption. }
  destruct Hd as (d & Hc & Hlen & Hu8). exists d.
  split; [exact Hc|]. split; [exact Hlen|]. split; [exact Hu8|].
  rewrite Hc. split; simpl; [exact Hu8 | congruence].
Qed.

Lemma C8_grayscale_range_witness :
  Image.wf (Image.mk 2 1 (Image.RGB [(255, 255, 255); (255, 0, 0)])) ∧
  ∃ d,
    Image.convert (Image.mk 2 1 (Image.RGB [(255, 255, 255); (255, 0, 0)]))
      = Image.mk 2 1 (Image.Gray d)
    ∧ length d = 2%nat
    ∧ Forall (λ l, 0 ≤ l ≤ 255) d
    ∧ Image.wf (Image.convert (Image.mk 2 1 (Image.RGB [(255, 255, 255); (255, 0, 0)]))).
Proof.
  assert (H : Image.wf (Image.mk 2 1 (Image.RGB [(255, 255, 255); (255, 0, 0)]))).
  { split; [|reflexivity]. simpl. repeat constructor; unfold Image.u8; lia. }
  split; [exact H|].
  exact (C8_grayscale_range _ H).
Defined.

(** C9.  Only black and white is written: whenever the script runs to its
    end, the file at the output path is the encoding of the image of line 7
    for the decoded input, that image has mode ["1"], and every one of its
    pixels is 0 or 255. *)
Theorem C9_written_pixels_binary
    (png_decode : list byte → option Image.t) (bmp_encode : Image.t → list byte)
    (fs fs' : fsys) :
  main png_decode bmp_encode fs = (inr tt, fs') →
  ∃ bytes img out d,
    files fs !! "prism_logo.png"%string = Some bytes
    ∧ png_decode bytes = Some img
    ∧ bw img = inr out
    ∧ files fs' !! "prism_logo_bw.bmp"%string = Some (bmp_encode out)
    ∧ Image.im out = Image.Bits d
    ∧ Image.getmode (Image.im out) = Image.M1
    ∧ Forall (λ x, x = 0 ∨ x = 255) d.
Proof.
  intros Hrun.
  apply main_success in Hrun as (bytes & img & out & Hf & Hd & Hbw & _ & ->).
  destruct (bw_total img) as (d & Hbw' & _ & Hbin).
  assert (out = Image.mk (Image.width img) (Image.height img) (Image.Bits d))
    as -> by congruence.
  exists bytes, img, (Image.mk (Image.width img) (Image.height img) (Image.Bits d)), d.
  simpl. rewrite lookup_insert_eq. repeat split; assumption.
Qed.

Lemma C9_written_pixels_binary_witness :
  ∃ bytes img out d,
    files Raw.fs_logo_stale !! "prism_logo.png"%string = Some bytes
    ∧ Raw.decode bytes = Some img
    ∧ bw img = inr out
    ∧ files (snd (main Raw.decode Raw.encode Raw.fs_logo_stale))
        !! "prism_logo_bw.bmp"%string = Some (Raw.encode out)
    ∧ Image.im out = Image.Bits d
    ∧ Image.getmode (Image.im out) = Image.M1
    ∧ Forall (λ x, x = 0 ∨ x = 255) d.
Proof.
  apply (C9_written_pixels_binary Raw.decode Raw.encode Raw.fs_logo_stale
           (snd (main Raw.decode Raw.encode Raw.fs_logo_stale))).
  vm_compute. reflexivity.
Defined.

(** C10.  Grey input: on an image that is already in mode ["L"] the greyscale
    step changes nothing, so line 7 puts at every position the threshold of
    the input pixel at that position. *)
Theorem C10_gray_input (w h : nat) (d : list Z) :
  Forall (λ x, 0 ≤ x ≤ 255) d →
  Image.convert (Image.mk w h (Image.Gray d)) = Image.mk w h (Image.Gray d)
  ∧ ∃ out,
      bw (Image.mk w h (Image.Gray d)) = inr (Image.mk w h (Image.Bits out))
      ∧ length out = length d
      ∧ ∀ (i : nat) (x : Z), d !! i = Some x → out !! i = Some (threshold x).
Proof.
  intros Hd. split; [reflexivity|].
  exists (threshold <$> d). split; [|split].
  - unfold bw.
    change (Image.convert (Image.mk w h (Image.Gray d)))
      with (Image.mk w h (Image.Gray d)).
    apply point_threshold_Gray, Hd.
  - apply length_fmap.
  - intros i x Hi. rewrite list_lookup_fmap, Hi. reflexivity.
Qed.

Lemma C10_gray_input_witness :
  Forall (λ x, 0 ≤ x ≤ 255) [10; 200; 127; 128] ∧
  Image.convert (Image.mk 2 2 (Image.Gray [10; 200; 127; 128]))
    = Image.mk 2 2 (Image.Gray [10; 200; 127; 128])
  ∧ ∃ out,
      bw (Image.mk 2 2 (Image.Gray [10; 200; 127; 128]))
        = inr (Image.mk 2 2 (Image.Bits out))
      ∧ length out = 4%nat
      ∧ ∀ (i : nat) (x : Z),
          ([10; 200; 127; 128] : list Z) !! i = Some x →
          out !! i = Some (threshold x).
Proof.
  assert (H : Forall (λ x, 0 ≤ x ≤ 255) [10; 200; 127; 128])
    by (repeat constructor; lia).
  split; [exact H|].
  exact (C10_gray_input 2 2 [10; 200; 127; 128] H).
Defined.

(** ** Further properties of the script *)

Section ScriptOutcomes.

Variable png_decode : list byte → option Image.t.
Variable bmp_encode : Image.t → list byte.

(** X1.  Scenario 4: the input decodes but the output path is read-only;
    the exception of [save] reaches the top level, the exit status is 1 and
    the file system is as it was. *)
Theorem main_write_failure (fs : fsys) (bytes : list byte) (img : Image.t) :
  files fs !! "prism_logo.png"%string = Some bytes →
  png_decode bytes = Some img →
  "prism_logo_bw.bmp"%string ∈ readonly fs →
  main png_decode bmp_encode fs = (inl PermissionError, fs)
  ∧ exit_status (fst (main png_decode bmp_encode fs)) = 1.
Proof.
  intros Hf Hd Hro.
  destruct (main_decoded png_decode bmp_encode fs bytes img Hf Hd)
    as (d & _ & _ & _ & Hmain).
  rewrite Hmain. unfold Image.save. case_decide; [|contradiction].
  split; reflexivity.
Qed.

(** X5.  Frame: whatever the outcome, the run touches no path but the
    output path and leaves the set of read-only paths alone; in particular
    the input file keeps its bytes. *)
Theorem main_frame (fs : fsys) (path : string) :
  path ≠ "prism_logo_bw.bmp"%string →
  files (snd (main png_decode bmp_encode fs)) !! path = files fs !! path
  ∧ readonly (snd (main png_decode bmp_encode fs)) = readonly fs
  ∧ files (snd (main png_decode bmp_encode fs)) !! "prism_logo.png"%string
    = files fs !! "prism_logo.png"%string.
Proof.
  intros Hp. rewrite main_unfold.
  destruct (files fs !! "prism_logo.png"%string) as [bytes|] eqn:Hf;
    [|simpl; rewrite Hf; auto].
  destruct (png_decode bytes) as [img|]; [|simpl; rewrite Hf; auto].
  destruct (bw img) as [e'|out]; [simpl; rewrite Hf; auto|].
  unfold Image.save. case_decide; simpl; [rewrite Hf; auto|].
  rewrite !lookup_insert_ne by (done || congruence). rewrite Hf. auto.
Qed.

(** X6.  Running the script again changes nothing: after a run that ended
    without an exception, a second run ends the same way and leaves the file
    system of the first. *)
Theorem main_rerun (fs fs' : fsys) :
  main png_decode bmp_encode fs = (inr tt, fs') →
  main png_decode bmp_encode fs' = (inr tt, fs').
Proof.
  intros Hrun.
  apply main_success in Hrun as (bytes & img & out & Hf & Hd & Hbw & Hro & ->).
  rewrite main_unfold. simpl.
  rewrite lookup_insert_ne by done. rewrite Hf, Hd, Hbw.
  unfold Image.save. simpl. case_decide; [contradiction|].
  rewrite insert_insert_eq. reflexivity.
Qed.

End ScriptOutcomes.

Lemma main_write_failure_witness :
  main Raw.decode Raw.encode Samples.fs_locked
    = (inl PermissionError, Samples.fs_locked)
  ∧ exit_status (fst (main Raw.decode Raw.encode Samples.fs_locked)) = 1.
Proof.
  apply (main_write_failure Raw.decode Raw.encode Samples.fs_locked Raw.logo
           (Image.mk 2 2 (Image.Gray [10; 200; 127; 128])));
    vm_compute; reflexivity.
Defined.

Lemma main_frame_witness :
  "notes.txt"%string ≠ "prism_logo_bw.bmp"%string
  ∧ files (snd (main Raw.decode Raw.encode Raw.fs_logo_stale)) !! "notes.txt"%string
    = files Raw.fs_logo_stale !! "notes.txt"%string
  ∧ readonly (snd (main Raw.decode Raw.encode Raw.fs_logo_stale))
    = readonly Raw.fs_logo_stale
  ∧ files (snd (main Raw.decode Raw.encode Raw.fs_logo_stale))
      !! "prism_logo.png"%string
    = files Raw.fs_logo_stale !! "prism_logo.png"%string.
Proof.
  assert (H : "notes.txt"%string ≠ "prism_logo_bw.bmp"%string) by discriminate.
  split; [exact H|].
  exact (main_frame Raw.decode Raw.encode Raw.fs_logo_stale "notes.txt" H).
Defined.

Lemma main_rerun_witness :
  main Raw.decode Raw.encode Raw.fs_logo_stale
    = (inr tt, snd (main Raw.decode Raw.encode Raw.fs_logo_stale))
  ∧ main Raw.decode Raw.encode (snd (main Raw.decode Raw.encode Raw.fs_logo_stale))
    = (inr tt, snd (main Raw.decode Raw.encode Raw.fs_logo_stale)).
Proof.
  assert (H : main Raw.decode Raw.encode Raw.fs_logo_stale
              = (inr tt, snd (main Raw.decode Raw.encode Raw.fs_logo_stale)))
    by (vm_compute; reflexivity).
  split; [exact H|].
  exact (main_rerun Raw.decode Raw.encode _ _ H).
Defined.

(** ** Further properties of the threshold of line 7 *)

Lemma threshold_le (x y : Z) : x ≤ y → threshold x ≤ threshold y.
Proof. unfold threshold. intros Hxy. repeat case_decide; lia. Qed.

Lemma threshold_negative (x : Z) :
  0 ≤ x ≤ 255 → threshold (255 - x) = 255 - threshold x.
Proof. unfold threshold. intros Hx. repeat case_decide; lia. Qed.

(** X7.  The threshold is monotone: if every pixel of one grey image is at
    most the pixel at the same position of another, the same holds of the
    two black-and-white results; brightening a pixel never turns it from
    white to black. *)
Theorem bw_monotone (w h : nat) (d1 d2 : list Z) :
  Forall (λ x, 0 ≤ x ≤ 255) d1 →
  Forall (λ x, 0 ≤ x ≤ 255) d2 →
  Forall2 Z.le d1 d2 →
  ∃ o1 o2,
    bw (Image.mk w h (Image.Gray d1)) = inr (Image.mk w h (Image.Bits o1))
    ∧ bw (Image.mk w h (Image.Gray d2)) = inr (Image.mk w h (Image.Bits o2))
    ∧ Forall2 Z.le o1 o2.
Proof.
  intros H1 H2 Hle. exists (threshold <$> d1), (threshold <$> d2).
  unfold bw.
  change (Image.convert (Image.mk w h (Image.Gray d1)))
    with (Image.mk w h (Image.Gray d1)).
  change (Image.convert (Image.mk w h (Image.Gray d2)))
    with (Image.mk w h (Image.Gray d2)).
  rewrite !point_threshold_Gray by assumption.
  split; [reflexivity|]. split; [reflexivity|].
  apply Forall2_fmap. eapply Forall2_impl; [exact Hle|].
  intros x y. apply threshold_le.
Qed.

Lemma bw_monotone_witness :
  Forall2 Z.le [10; 127; 128] [10; 128; 255]
  ∧ ∃ o1 o2,
      bw (Image.mk 3 1 (Image.Gray [10; 127; 128]))
        = inr (Image.mk 3 1 (Image.Bits o1))
      ∧ bw (Image.mk 3 1 (Image.Gray [10; 128; 255]))
        = inr (Image.mk 3 1 (Image.Bits o2))
      ∧ Forall2 Z.le o1 o2.
Proof.
  assert (Hle : Forall2 Z.le [10; 127; 128] [10; 128; 255])
    by (repeat constructor; lia).
  split; [exact Hle|].
  apply (bw_monotone 3 1 [10; 127; 128] [10; 128; 255]);
    [repeat constructor; lia | repeat constructor; lia | exact Hle].
Defined.

(** X8.  The cut at 128 splits the byte range in two equal halves, so
    thresholding commutes with taking the negative: line 7 on the negative
    of a grey image gives the negative of line 7 on the image. *)
Theorem bw_negative (w h : nat) (d : list Z) :
  Forall (λ x, 0 ≤ x ≤ 255) d →
  ∃ out,
    bw (Image.mk w h (Image.Gray d)) = inr (Image.mk w h (Image.Bits out))
    ∧ bw (Image.mk w h (Image.Gray (Samples.invert d)))
      = inr (Image.mk w h (Image.Bits (Samples.invert out))).
Proof.
  intros Hd. exists (threshold <$> d). unfold bw.
  change (Image.convert (Image.mk w h (Image.Gray d)))
    with (Image.mk w h (Image.Gray d)).
  change (Image.convert (Image.mk w h (Image.Gray (Samples.invert d))))
    with (Image.mk w h (Image.Gray (Samples.invert d))).
  rewrite point_threshold_Gray by exact Hd.
  split; [reflexivity|].
  rewrite point_threshold_Gray.
  - do 3 f_equal. unfold Samples.invert. rewrite <- !list_fmap_compose.
    apply Forall_fmap_ext. eapply Forall_impl; [exact Hd|].
    intros x Hx. unfold compose. apply threshold_negative, Hx.
  - unfold Samples.invert. apply Forall_fmap. eapply Forall_impl; [exact Hd|].
    intros x Hx. unfold compose, Image.u8 in *. lia.
Qed.

Lemma bw_negative_witness :
  Forall (λ x, 0 ≤ x ≤ 255) [10; 200; 127; 128]
  ∧ ∃ out,
      bw (Image.mk 2 2 (Image.Gray [10; 200; 127; 128]))
        = inr (Image.mk 2 2 (Image.Bits out))
      ∧ bw (Image.mk 2 2 (Image.Gray (Samples.invert [10; 200; 127; 128])))
        = inr (Image.mk 2 2 (Image.Bits (Samples.invert out))).
Proof.
  assert (H : Forall (λ x, 0 ≤ x ≤ 255) [10; 200; 127; 128])
    by (repeat constructor; lia).
  split; [exact H|].
  exact (bw_negative 2 2 [10; 200; 127; 128] H).
Defined.
